(** * amieclient.usage: usage records and usage messages

    A shallow embedding of [amieclient/usage.py].  Python values are a small
    inductive type, dictionaries are finite maps keyed by [str], exceptions
    are an error type threaded through a result monad, and the objects that
    [UsageMessage] allocates live in an explicit store. *)

From Stdlib Require Import ZArith String Ascii List Lia Bool.
From stdpp Require Import base gmap strings list fin_maps.

#[local] Set Warnings "-register-all".
#[local] Open Scope Z_scope.

(** ** Python values and exceptions *)

(** The values that reach this module: [None], [str], tuples, lists and
    dictionaries with [str] keys (what [json.loads] produces, plus the tuple
    that the record constructor builds).  A [str] is modelled as ASCII text. *)
Inductive value :=
| VNone
| VStr (s : string)
| VTuple (vs : list value)
| VList (vs : list value)
| VDict (d : gmap string value).

Inductive exn :=
| KeyError (key : string)
| TypeError (msg : string)
| AttributeError (name : string)
| NameError (name : string)
| ValueError (msg : string)
| UsageMessageException (msg : string).

Inductive result (A : Type) :=
| Ok (a : A)
| Raise (e : exn).
Arguments Ok {A} a.
Arguments Raise {A} e.

(** Sequencing: an exception raised by the first computation propagates. *)
#[global] Instance result_bind : MBind result := λ A B k m,
  match m with
  | Ok a => k a
  | Raise e => Raise e
  end.

(** [v is None] *)
Definition is_None (v : value) : bool :=
  match v with
  | VNone => true
  | _ => false
  end.

(** [v[key]] for a [str] key: a dictionary looks the key up and raises
    [KeyError] when it is absent; the other values reject a [str] subscript. *)
Definition getitem (v : value) (key : string) : result value :=
  match v with
  | VDict d =>
      match d !! key with
      | Some x => Ok x
      | None => Raise (KeyError key)
      end
  | VNone => Raise (TypeError "'NoneType' object is not subscriptable")
  | VStr _ => Raise (TypeError "string indices must be integers")
  | VTuple _ => Raise (TypeError "tuple indices must be integers or slices")
  | VList _ => Raise (TypeError "list indices must be integers or slices")
  end.

(** [v.get(key)]: [None] for an absent key; only dictionaries have [get]. *)
Definition get (v : value) (key : string) : result value :=
  match v with
  | VDict d =>
      match d !! key with
      | Some x => Ok x
      | None => Ok VNone
      end
  | _ => Raise (AttributeError "get")
  end.

(** ** [str.lower] and [str.capitalize] on ASCII text *)

Definition is_upper (c : ascii) : bool :=
  let n := nat_of_ascii c in (65 <=? n)%nat && (n <=? 90)%nat.

Definition is_lower (c : ascii) : bool :=
  let n := nat_of_ascii c in (97 <=? n)%nat && (n <=? 122)%nat.

Definition lower_char (c : ascii) : ascii :=
  if is_upper c then ascii_of_nat (nat_of_ascii c + 32) else c.

Definition upper_char (c : ascii) : ascii :=
  if is_lower c then ascii_of_nat (nat_of_ascii c - 32) else c.

Fixpoint lower (s : string) : string :=
  match s with
  | EmptyString => EmptyString
  | String c r => String (lower_char c) (lower r)
  end.

(** First character upper-cased, the rest lower-cased. *)
Definition capitalize (s : string) : string :=
  match s with
  | EmptyString => EmptyString
  | String c r => String (upper_char c) (lower r)
  end.

(** ** [UsageAttributes] and [ComputeUsageRecord] *)

(** The named tuple, fields in declaration order. *)
Record UsageAttributes := mkUsageAttributes {
  node_count : value;
  cpu_core_count : value;
  job_name : value;
  memory : value;
  queue : value
}.

(** [UsageAttributes._asdict().items()]: the field names with their values,
    in field order. *)
Definition _asdict (a : UsageAttributes) : list (string * value) :=
  [ ("node_count", node_count a);
    ("cpu_core_count", cpu_core_count a);
    ("job_name", job_name a);
    ("memory", memory a);
    ("queue", queue a) ].

Module ComputeUsageRecord.

(** The instance attributes bound by [__init__]. *)
Record t := mk {
  attributes : UsageAttributes;
  parent_record_id : value;
  charge : value;
  end_time : value;
  local_project_id : value;
  local_record_id : value;
  resource : value;
  start_time : value;
  submit_time : value;
  username : value
}.

(** The keyword-only constructor, arguments in the order of the signature
    (the five optional ones default to [None] at the call site).  The
    assignment to [parent_record_id] ends in a comma, so what is stored is
    the 1-tuple holding the argument. *)
Definition __init__
    (parent_record_id queue cpu_core_count job_name memory charge end_time
     local_project_id local_record_id resource start_time submit_time
     username node_count : value) : t :=
  {| attributes :=
       mkUsageAttributes node_count cpu_core_count job_name memory queue;
     parent_record_id := VTuple [parent_record_id];
     charge := charge;
     end_time := end_time;
     local_project_id := local_project_id;
     local_record_id := local_record_id;
     resource := resource;
     start_time := start_time;
     submit_time := submit_time;
     username := username |}.

(** [from_dict]: the keyword arguments are evaluated in the order they are
    written, so the first absent required key is the one reported. *)
Definition from_dict (input_dict : value) : result t :=
  username ← getitem input_dict "Username";
  local_project_id ← getitem input_dict "LocalProjectID";
  local_record_id ← getitem input_dict "LocalRecordID";
  resource ← getitem input_dict "Resource";
  submit_time ← getitem input_dict "SubmitTime";
  start_time ← getitem input_dict "StartTime";
  end_time ← getitem input_dict "EndTime";
  charge ← getitem input_dict "Charge";
  node_count ← (a ← getitem input_dict "Attributes"; getitem a "NodeCount");
  cpu_core_count ← (a ← getitem input_dict "Attributes"; get a "CpuCoreCount");
  job_name ← (a ← getitem input_dict "Attributes"; get a "JobName");
  memory ← (a ← getitem input_dict "Attributes"; get a "Memory");
  queue ← (a ← getitem input_dict "Attributes"; get a "Queue");
  parent_record_id ← get input_dict "ParentRecordID";
  Ok (__init__ parent_record_id queue cpu_core_count job_name memory charge
        end_time local_project_id local_record_id resource start_time
        submit_time username node_count).

(** The loop of [as_dict] over the attribute items: an entry is stored
    under the item's own key unless its value is [None]. *)
Definition collect_attributes (items : list (string * value))
  : gmap string value :=
  foldl (fun attributes kv =>
           if is_None kv.2 then attributes else <[kv.1 := kv.2]> attributes)
        ∅ items.

Definition as_dict (self : t) : gmap string value :=
  let attributes := collect_attributes (_asdict (attributes self)) in
  let d : gmap string value :=
    <["Attributes" := VDict attributes]>
    (<["Charge" := charge self]>
    (<["EndTime" := end_time self]>
    (<["StartTime" := start_time self]>
    (<["SubmitTime" := submit_time self]>
    (<["Resource" := resource self]>
    (<["LocalRecordID" := local_record_id self]>
    (<["LocalProjectID" := local_project_id self]>
    (<["Username" := username self]> ∅)))))))) in
  if is_None (parent_record_id self) then d
  else <["ParentRecordID" := parent_record_id self]> d.

End ComputeUsageRecord.

(** ** Names bound at module level *)

(** What the module's top-level statements bind, in source order. *)
Inductive binding :=
| Module_json
| Function_namedtuple
| Class_UsageAttributes
| Class_ComputeUsageRecord
| Class_UsageMessageException
| Class_UsageMessage.

Definition module_globals : gmap string binding :=
  list_to_map
    [ ("json", Module_json);
      ("namedtuple", Function_namedtuple);
      ("UsageAttributes", Class_UsageAttributes);
      ("ComputeUsageRecord", Class_ComputeUsageRecord);
      ("UsageMessageException", Class_UsageMessageException);
      ("UsageMessage", Class_UsageMessage) ].

(** Reading a global name inside a function body. *)
Definition load_global (name : string) : result binding :=
  match module_globals !! name with
  | Some b => Ok b
  | None => Raise (NameError name)
  end.

(** [b.from_dict(d)] where a record is expected.  Only [ComputeUsageRecord]
    has a [from_dict] that builds a record; [json], [namedtuple],
    [UsageAttributes] and [UsageMessageException] have no such attribute.
    [UsageMessage.from_dict] builds a message rather than a record; no name
    in this module reaches that case and it is reported like the others. *)
Definition record_from_dict (b : binding) (d : value)
  : result ComputeUsageRecord.t :=
  match b with
  | Class_ComputeUsageRecord => ComputeUsageRecord.from_dict d
  | _ => Raise (AttributeError "from_dict")
  end.

(** ** The object store *)

(** Locations of the store. *)
Abbreviation loc := positive.

(** A [UsageMessage] instance: the two attributes its methods read, each
    bound or not.  [records] refers to an object of the store. *)
Record instance := mkInstance {
  usage_type : option value;
  records : option loc
}.

Inductive object :=
| ListObj (items : list ComputeUsageRecord.t)
| Instance (i : instance).

Abbreviation heap := (gmap loc object).

(** A computation that reads and extends the store and may raise. *)
Definition M (A : Type) : Type := heap -> result A * heap.

#[global] Instance M_ret : MRet M := λ A a σ, (Ok a, σ).

#[global] Instance M_bind : MBind M := λ A B k m σ,
  match m σ with
  | (Ok a, σ') => k a σ'
  | (Raise e, σ') => (Raise e, σ')
  end.

Definition lift {A} (r : result A) : M A := λ σ, (r, σ).

(** A new object gets a location that is not in use. *)
Definition alloc (o : object) : M loc := λ σ,
  let l := fresh (dom σ) in (Ok l, <[l := o]> σ).

(** ** Sequences: [range], slices, iteration *)

(** [range(start, stop, step)] for a non-zero step. *)
Definition range_len (start stop step : Z) : Z :=
  if 0 <? step then Z.max 0 ((stop - start + step - 1) / step)
  else Z.max 0 ((start - stop - step - 1) / (- step)).

Definition range (start stop step : Z) : list Z :=
  map (λ k, start + Z.of_nat k * step)
      (seq 0 (Z.to_nat (range_len start stop step))).

(** A slice bound is clamped to the sequence; a negative one counts from
    the end. *)
Definition clamp (n k : Z) : Z :=
  if k <? 0 then Z.max (k + n) 0 else Z.min k n.

(** [l[i:j]] *)
Definition slice {A} (l : list A) (i j : Z) : list A :=
  let n := Z.of_nat (length l) in
  let lo := clamp n i in
  let hi := clamp n j in
  take (Z.to_nat (hi - lo)) (drop (Z.to_nat lo) l).

(** [for d in v]: the items a value yields when iterated.  A dictionary
    yields its keys (in the enumeration order of the finite map, which does
    not record insertion order); [None] is not iterable. *)
Definition iterate (v : value) : result (list value) :=
  match v with
  | VList vs => Ok vs
  | VTuple vs => Ok vs
  | VStr s => Ok (map (λ c, VStr (String c EmptyString)) (list_ascii_of_string s))
  | VDict d => Ok (map (λ kv, VStr kv.1) (map_to_list d))
  | VNone => Raise (TypeError "'NoneType' object is not iterable")
  end.

(** A list comprehension: the element expression runs once per item, in
    order, and the first exception ends it. *)
Fixpoint comprehension {A B} (f : A -> result B) (items : list A)
  : result (list B) :=
  match items with
  | [] => Ok []
  | x :: rest =>
      y ← f x;
      ys ← comprehension f rest;
      Ok (y :: ys)
  end.

(** ** [UsageMessage] *)

Module UsageMessage.

Definition valid_usage_types : list string :=
  ["Compute"; "Storage"; "Adjustment"].

(** [self.usage_type] *)
Definition get_usage_type (self : loc) : M value := λ σ,
  match σ !! self with
  | Some (Instance i) =>
      match usage_type i with
      | Some v => (Ok v, σ)
      | None => (Raise (AttributeError "usage_type"), σ)
      end
  | _ => (Raise (AttributeError "usage_type"), σ)
  end.

(** [self.records] *)
Definition get_records (self : loc) : M loc := λ σ,
  match σ !! self with
  | Some (Instance i) =>
      match records i with
      | Some l => (Ok l, σ)
      | None => (Raise (AttributeError "records"), σ)
      end
  | _ => (Raise (AttributeError "records"), σ)
  end.

(** The items of the list object at [l]; a message instance has neither
    [len] nor slicing nor iteration. *)
Definition list_items (l : loc) : M (list ComputeUsageRecord.t) := λ σ,
  match σ !! l with
  | Some (ListObj items) => (Ok items, σ)
  | _ => (Raise (TypeError "'UsageMessage' object is not a sequence"), σ)
  end.

(** The constructor: the usage type is normalised and checked, and the
    only attribute bound on the new instance is [records]. *)
Definition __init__ (usage_type : value) (records : loc) : M loc :=
  match usage_type with
  | VStr s =>
      let ut := capitalize (lower s) in
      if bool_decide (ut ∈ valid_usage_types) then
        alloc (Instance {| usage_type := None; records := Some records |})
      else
        lift (Raise (UsageMessageException ("Invalid usage type " +:+ ut)))
  | _ => lift (Raise (AttributeError "lower"))
  end.

(** [from_dict]: the record class is looked up under the global name
    [UsageRecord], once per entry of [Records]. *)
Definition from_dict (input_dict : value) : M loc :=
  ut ← lift (getitem input_dict "UsageType");
  records ← lift (
    entries ← getitem input_dict "Records";
    ds ← iterate entries;
    comprehension (λ d, cls ← load_global "UsageRecord";
                        record_from_dict cls d) ds);
  l ← alloc (ListObj records);
  __init__ ut l.

(** [as_dict]: the entries of the literal are evaluated in order. *)
Definition as_dict (self : loc) : M (gmap string value) :=
  ut ← get_usage_type self;
  l ← get_records self;
  items ← list_items l;
  mret (<["Records" :=
            VList (map (λ r, VDict (ComputeUsageRecord.as_dict r)) items)]>
        (<["UsageType" := ut]> ∅)).

(** One pass through the body of the loop of [_chunked]: the message that
    is yielded for index [i]. *)
Definition chunk_at (self : loc) (chunk_size i : Z) : M loc :=
  l ← get_records self;
  items ← list_items l;
  r ← alloc (ListObj (slice items i (i + chunk_size)));
  ut ← get_usage_type self;
  __init__ ut r.

(** What a consumer that exhausts a generator sees: the items yielded, in
    order, and the exception that ended the iteration, if any. *)
Definition trace : Type := list loc * option exn.

Fixpoint chunk_loop (self : loc) (chunk_size : Z) (indices : list Z)
    (σ : heap) : trace * heap :=
  match indices with
  | [] => (([], None), σ)
  | i :: rest =>
      match chunk_at self chunk_size i σ with
      | (Ok m, σ1) =>
          let '((ms, e), σ2) := chunk_loop self chunk_size rest σ1 in
          ((m :: ms, e), σ2)
      | (Raise e, σ1) => (([], Some e), σ1)
      end
  end.

(** [_chunked], iterated to the end.  The arguments of [range] are
    evaluated before [range] rejects a zero step. *)
Definition _chunked (self : loc) (chunk_size : Z) (σ : heap) : trace * heap :=
  match (l ← get_records self; list_items l) σ with
  | (Ok items, σ0) =>
      if chunk_size =? 0 then
        (([], Some (ValueError "range() arg 3 must not be zero")), σ0)
      else
        chunk_loop self chunk_size
          (range 0 (Z.of_nat (length items)) chunk_size) σ0
  | (Raise e, σ0) => (([], Some e), σ0)
  end.

(** [as_json]: [self.as_dict] is evaluated first and its result handed to
    [json.dumps].  The [json] library is not part of this module; its
    [dumps] is the parameter. *)
Definition as_json (dumps : value -> result string) (self : loc) : M string :=
  d ← as_dict self;
  lift (dumps (VDict d)).

End UsageMessage.

(** * Vocabulary of the statements *)

(** A stored value that is not [None]. *)
Definition non_None (v : value) : option value :=
  if is_None v then None else Some v.

(** ** Required keys of the record wire format *)

Definition required_keys : list string :=
  ["Username"; "LocalProjectID"; "LocalRecordID"; "Resource";
   "SubmitTime"; "StartTime"; "EndTime"; "Charge"].

Definition absent (d : gmap string value) (key : string) : bool :=
  match d !! key with
  | None => true
  | Some _ => false
  end.

(** The required keys that [d] lacks, in the order [from_dict] reads them:
    the top-level ones, then [Attributes] and the [NodeCount] inside it. *)
Definition missing_keys (d : gmap string value) : list string :=
  List.filter (absent d) required_keys ++
  match d !! "Attributes" with
  | None => ["Attributes"]
  | Some (VDict a) => if absent a "NodeCount" then ["NodeCount"] else []
  | Some _ => []
  end.

(** [Attributes], when present, is itself a mapping. *)
Definition attributes_is_mapping (d : gmap string value) : Prop :=
  ∀ v, d !! "Attributes" = Some v → ∃ a, v = VDict a.

(** The attribute names of the wire format. *)
Definition wire_attribute_keys : list string :=
  ["NodeCount"; "CpuCoreCount"; "JobName"; "Memory"; "Queue"].

(** A record dictionary of the wire format: the required keys, and of the
    optional ones only [Queue]. *)
Definition sample_record_dict : gmap string value :=
  list_to_map
    [ ("Username", VStr "alice");
      ("LocalProjectID", VStr "P1");
      ("LocalRecordID", VStr "4242");
      ("Resource", VStr "cluster");
      ("SubmitTime", VStr "2020-01-01T00:00:00Z");
      ("StartTime", VStr "2020-01-01T00:01:00Z");
      ("EndTime", VStr "2020-01-01T01:00:00Z");
      ("Charge", VStr "10");
      ("Attributes",
       VDict (list_to_map [("NodeCount", VStr "1"); ("Queue", VStr "batch")])) ].

(** The record that the constructor builds from the same data, with no
    [parent_record_id]. *)
Definition sample_record : ComputeUsageRecord.t :=
  ComputeUsageRecord.__init__ VNone (VStr "batch") VNone VNone VNone
    (VStr "10") (VStr "2020-01-01T01:00:00Z") (VStr "P1") (VStr "4242")
    (VStr "cluster") (VStr "2020-01-01T00:01:00Z")
    (VStr "2020-01-01T00:00:00Z") (VStr "alice") (VStr "1").

(** The same letters up to ASCII case, character by character. *)
Definition swapcase_char (c : ascii) : ascii :=
  if is_upper c then lower_char c else upper_char c.

Fixpoint case_permutation (s t : string) : bool :=
  match s, t with
  | EmptyString, EmptyString => true
  | String a s', String b t' =>
      (Ascii.eqb a b || Ascii.eqb a (swapcase_char b))
      && case_permutation s' t'
  | _, _ => false
  end.

(** A message dictionary of the wire format with one record. *)
Definition sample_message_dict : gmap string value :=
  list_to_map
    [ ("UsageType", VStr "Compute");
      ("Records", VList [VDict sample_record_dict]) ].

(** A store holding one list object with three records. *)
Definition sample_heap : heap :=
  {[ 1%positive := ListObj [sample_record; sample_record; sample_record] ]}.

(** The new instance that [__init__] binds. *)
Definition new_instance (records : loc) : object := Instance
  {| usage_type := None; records := Some records |}.

(** The store after [UsageMessage("Compute", records)] on the sample
    store, [records] being the list object at location 1. *)
Definition sample_message_heap : heap :=
  <[ 2%positive := new_instance 1%positive ]> sample_heap.

(** A record dictionary with the required keys and no optional one. *)
Definition minimal_record_dict : gmap string value :=
  <["Attributes" := VDict {["NodeCount" := VStr "1"]}]> sample_record_dict.

(** A source message on which some caller has bound [usage_type] to the
    string [s], over the list object at [rl] holding [items]. *)
Definition source_in (self rl : loc) (s : string)
    (items : list ComputeUsageRecord.t) (σ : heap) : Prop :=
  σ !! self
    = Some (Instance {| usage_type := Some (VStr s); records := Some rl |})
  ∧ σ !! rl = Some (ListObj items).

(** The message at [m] wraps the slice of [items] taken at index [i]. *)
Definition chunk_in (items : list ComputeUsageRecord.t) (chunk_size : Z)
    (σ : heap) (m : loc) (i : Z) : Prop :=
  ∃ r, σ !! m = Some (new_instance r) ∧
       σ !! r = Some (ListObj (slice items i (i + chunk_size))).

(** The field names of [UsageAttributes]. *)
Definition attribute_fields : list string :=
  ["node_count"; "cpu_core_count"; "job_name"; "memory"; "queue"].

(** The top-level keys that [as_dict] always writes. *)
Definition as_dict_keys : gset string :=
  list_to_set (required_keys ++ ["Attributes"]).

(** A record dictionary that lacks both [Resource] and [Charge]. *)
Definition incomplete_record_dict : gmap string value :=
  delete "Resource" (delete "Charge" minimal_record_dict).

(** A record dictionary whose [Attributes] is a JSON [null]. *)
Definition null_attributes_dict : gmap string value :=
  <["Attributes" := VNone]> sample_record_dict.

(** A message dictionary of the wire format with no record. *)
Definition empty_message_dict (usage_type : string) : gmap string value :=
  list_to_map [ ("UsageType", VStr usage_type); ("Records", VList []) ].

(** The sample store after a caller has bound [usage_type] on the message
    at location 2. *)
Definition sample_bound_heap : heap :=
  <[ 2%positive :=
       Instance {| usage_type := Some (VStr "Compute");
                   records := Some 1%positive |} ]> sample_heap.

(** The store after [UsageMessage.from_dict] has built a message with no
    record in an empty store. *)
Definition empty_message_heap : heap :=
  <[ 2%positive := new_instance 1%positive ]> {[ 1%positive := ListObj [] ]}.

(** The top-level keys that [from_dict] reads. *)
Definition known_keys : list string :=
  required_keys ++ ["Attributes"; "ParentRecordID"].

(** * Properties *)

(** A key is not in a list of literal keys. *)
Ltac not_in_keys := apply (bool_decide_unpack _); by vm_compute.

(** ** Reading back what [as_dict] wrote *)

Section RecordDict.
Import ComputeUsageRecord.
Implicit Types (r : ComputeUsageRecord.t) (a : UsageAttributes).

(** The attribute loop never stores a key that is not among the items. *)
Lemma collect_attributes_absent items key :
  key ∉ items.*1 → collect_attributes items !! key = None.
Proof.
  unfold collect_attributes.
  assert (G : ∀ acc : gmap string value,
             acc !! key = None → key ∉ items.*1 →
             foldl (λ attributes kv,
                      if is_None kv.2 then attributes
                      else <[kv.1 := kv.2]> attributes) acc items !! key
             = None).
  { induction items as [|[k v] items IH]; intros acc Hacc Hk; simpl; [done|].
    apply IH.
    - destruct (is_None v); [done|].
      rewrite lookup_insert_ne; [done|].
      intros ->. apply Hk. simpl. left.
    - intros Hin. apply Hk. simpl. by right. }
  intros Hk. by apply G.
Qed.

Lemma collect_attributes_fields a :
  let attrs := collect_attributes (_asdict a) in
  attrs !! "node_count" = non_None (node_count a) ∧
  attrs !! "cpu_core_count" = non_None (cpu_core_count a) ∧
  attrs !! "job_name" = non_None (job_name a) ∧
  attrs !! "memory" = non_None (memory a) ∧
  attrs !! "queue" = non_None (queue a).
Proof.
  unfold collect_attributes, _asdict, non_None. simpl.
  destruct (is_None (node_count a)), (is_None (cpu_core_count a)),
    (is_None (job_name a)), (is_None (memory a)), (is_None (queue a));
    repeat split; reflexivity.
Qed.

Lemma as_dict_required r :
  let d := as_dict r in
  d !! "Username" = Some (username r) ∧
  d !! "LocalProjectID" = Some (local_project_id r) ∧
  d !! "LocalRecordID" = Some (local_record_id r) ∧
  d !! "Resource" = Some (resource r) ∧
  d !! "SubmitTime" = Some (submit_time r) ∧
  d !! "StartTime" = Some (start_time r) ∧
  d !! "EndTime" = Some (end_time r) ∧
  d !! "Charge" = Some (charge r).
Proof.
  unfold as_dict. destruct (is_None (parent_record_id r));
    repeat split; reflexivity.
Qed.

Lemma as_dict_Attributes r :
  as_dict r !! "Attributes"
  = Some (VDict (collect_attributes (_asdict (attributes r)))).
Proof.
  unfold as_dict. destruct (is_None (parent_record_id r)); reflexivity.
Qed.

Lemma as_dict_ParentRecordID r :
  as_dict r !! "ParentRecordID" = non_None (parent_record_id r).
Proof.
  unfold as_dict, non_None.
  destruct (is_None (parent_record_id r)); reflexivity.
Qed.

End RecordDict.

Lemma from_dict_first_missing (d : gmap string value) :
  attributes_is_mapping d →
  match missing_keys d with
  | key :: _ => ComputeUsageRecord.from_dict (VDict d) = Raise (KeyError key)
  | [] => ∃ r, ComputeUsageRecord.from_dict (VDict d) = Ok r
  end.
Proof.
  intros Hmap. unfold missing_keys, required_keys, absent,
    ComputeUsageRecord.from_dict, getitem, get. simpl.
  repeat match goal with
  | |- context [d !! ?k] =>
      lazymatch k with
      | "Attributes" => fail
      | "ParentRecordID" => fail
      | _ => destruct (d !! k) eqn:?; simpl; [|reflexivity]
      end
  end.
  destruct (d !! "Attributes") as [va|] eqn:Ha; simpl; [|reflexivity].
  destruct (Hmap va Ha) as [a ->]. simpl.
  destruct (a !! "NodeCount"); simpl; [|reflexivity].
  destruct (a !! "CpuCoreCount"), (a !! "JobName"), (a !! "Memory"),
    (a !! "Queue"), (d !! "ParentRecordID"); simpl; eauto.
Qed.

(** ** Claims about [ComputeUsageRecord] *)

(** C1 (the code departs from it).  Feeding the dictionary of any record
    back to [from_dict] does not rebuild the record: [as_dict] files the
    attributes under their field names, so the read of [NodeCount] raises
    [KeyError]. *)
Theorem from_dict_as_dict_raises (r : ComputeUsageRecord.t) :
  ComputeUsageRecord.from_dict (VDict (ComputeUsageRecord.as_dict r))
  = Raise (KeyError "NodeCount").
Proof.
  pose proof (as_dict_required r) as (Hu & Hp & Hl & Hr & Hs & Ht & He & Hc).
  pose proof (as_dict_Attributes r) as Ha.
  assert (Hn : ComputeUsageRecord.collect_attributes
                 (_asdict (ComputeUsageRecord.attributes r)) !! "NodeCount"
               = None).
  { apply collect_attributes_absent. not_in_keys. }
  unfold ComputeUsageRecord.from_dict, getitem.
  rewrite Hu, Hp, Hl, Hr, Hs, Ht, He, Hc. simpl.
  rewrite Ha. simpl. rewrite Hn. reflexivity.
Qed.

(** X4.  What [from_dict] followed by [as_dict] does to the attributes of a
    dictionary: each one present and not [None] is kept with its value, the
    others are left out, and the keys are the field names. *)
Lemma from_dict_as_dict_attributes (d a : gmap string value) r :
  d !! "Attributes" = Some (VDict a) →
  ComputeUsageRecord.from_dict (VDict d) = Ok r →
  ∃ attrs,
    ComputeUsageRecord.as_dict r !! "Attributes" = Some (VDict attrs) ∧
    (∀ key, key ∈ wire_attribute_keys → attrs !! key = None) ∧
    attrs !! "node_count" = a !! "NodeCount" ≫= non_None ∧
    attrs !! "cpu_core_count" = a !! "CpuCoreCount" ≫= non_None ∧
    attrs !! "job_name" = a !! "JobName" ≫= non_None ∧
    attrs !! "memory" = a !! "Memory" ≫= non_None ∧
    attrs !! "queue" = a !! "Queue" ≫= non_None.
Proof.
  intros Ha. unfold ComputeUsageRecord.from_dict, getitem, get. simpl.
  repeat match goal with
  | |- context [d !! ?k] =>
      lazymatch k with
      | "ParentRecordID" => fail
      | _ => destruct (d !! k) eqn:?; simpl; [|discriminate]
      end
  end.
  injection Ha as ->. simpl.
  destruct (a !! "NodeCount") as [nc|]; simpl; [|discriminate].
  intros Hr.
  eexists. split; [apply as_dict_Attributes|].
  pose proof (collect_attributes_fields (ComputeUsageRecord.attributes r))
    as (H1 & H2 & H3 & H4 & H5).
  split.
  { intros key Hkey. apply collect_attributes_absent.
    unfold wire_attribute_keys in Hkey.
    repeat (apply elem_of_cons in Hkey as [->|Hkey]; [not_in_keys|]).
    by apply elem_of_nil in Hkey. }
  rewrite H1, H2, H3, H4, H5.
  destruct (a !! "CpuCoreCount"), (a !! "JobName"), (a !! "Memory"),
    (a !! "Queue"), (d !! "ParentRecordID");
    simpl in Hr; injection Hr as <-; simpl; repeat split; reflexivity.
Qed.

(** C2 (the code departs from it).  On a wire-format dictionary whose
    attributes are [NodeCount] and [Queue], the attributes that come back
    are filed under [node_count] and [queue]: the values are kept and the
    absent attributes are left out, but no wire-format key is there. *)
Theorem as_dict_attribute_keys_sample :
  ∃ r attrs,
    ComputeUsageRecord.from_dict (VDict sample_record_dict) = Ok r ∧
    ComputeUsageRecord.as_dict r !! "Attributes" = Some (VDict attrs) ∧
    attrs !! "NodeCount" = None ∧ attrs !! "Queue" = None ∧
    attrs !! "node_count" = Some (VStr "1") ∧
    attrs !! "queue" = Some (VStr "batch") ∧
    dom attrs = {["node_count"; "queue"]}.
Proof.
  eexists. eexists.
  split; [reflexivity|]. split; [reflexivity|].
  repeat split; reflexivity.
Qed.

(** C3 (the code departs from it).  Whatever is passed as
    [parent_record_id], [None] included, the dictionary of the new record
    has the key [ParentRecordID], and its value is the 1-tuple holding the
    argument, not the argument. *)
Theorem as_dict_ParentRecordID_tuple
    (parent_record_id queue cpu_core_count job_name memory charge end_time
     local_project_id local_record_id resource start_time submit_time
     username node_count : value) :
  ComputeUsageRecord.as_dict
    (ComputeUsageRecord.__init__ parent_record_id queue cpu_core_count
       job_name memory charge end_time local_project_id local_record_id
       resource start_time submit_time username node_count)
    !! "ParentRecordID"
  = Some (VTuple [parent_record_id]).
Proof. apply as_dict_ParentRecordID. Qed.

(** C10.  The constructor accepts [None] for [node_count], and the
    [Attributes] of the resulting dictionary then have no node-count entry,
    under the field name or under the wire name. *)
Theorem as_dict_without_node_count
    (parent_record_id queue cpu_core_count job_name memory charge end_time
     local_project_id local_record_id resource start_time submit_time
     username : value) :
  ∃ attrs,
    ComputeUsageRecord.as_dict
      (ComputeUsageRecord.__init__ parent_record_id queue cpu_core_count
         job_name memory charge end_time local_project_id local_record_id
         resource start_time submit_time username VNone)
      !! "Attributes" = Some (VDict attrs) ∧
    attrs !! "node_count" = None ∧
    attrs !! "NodeCount" = None.
Proof.
  eexists. split; [apply as_dict_Attributes|].
  split.
  - pose proof (collect_attributes_fields
                  (mkUsageAttributes VNone cpu_core_count job_name memory queue))
      as (H1 & _).
    exact H1.
  - apply collect_attributes_absent. not_in_keys.
Qed.

(** C8.  For an input mapping whose [Attributes], when present, is a
    mapping: if a required key is absent, [from_dict] raises [KeyError] for
    an absent required key; if none is absent it returns a record, whether
    or not the optional keys are there. *)
Theorem from_dict_missing_key (d : gmap string value) :
  attributes_is_mapping d →
  (missing_keys d ≠ [] →
   ∃ key, key ∈ missing_keys d ∧
          ComputeUsageRecord.from_dict (VDict d) = Raise (KeyError key)) ∧
  (missing_keys d = [] →
   ∃ r, ComputeUsageRecord.from_dict (VDict d) = Ok r).
Proof.
  intros Hmap. pose proof (from_dict_first_missing d Hmap) as H.
  destruct (missing_keys d) as [|key rest].
  - split; [done|]. intros _. exact H.
  - split; [|done]. intros _. exists key. split; [left|exact H].
Qed.

(** What [missing_keys] lists. *)
Lemma elem_of_missing_keys (d : gmap string value) (key : string) :
  key ∈ missing_keys d ↔
    (key ∈ required_keys ∧ d !! key = None) ∨
    (key = "Attributes" ∧ d !! "Attributes" = None) ∨
    (key = "NodeCount" ∧
     ∃ a, d !! "Attributes" = Some (VDict a) ∧ a !! "NodeCount" = None).
Proof.
  unfold missing_keys. rewrite elem_of_app.
  rewrite (list_elem_of_In (List.filter _ _) key), filter_In,
    <- (list_elem_of_In required_keys key).
  assert (Habs : ∀ m : gmap string value,
             absent m key = true ↔ m !! key = None).
  { intros m. unfold absent. destruct (m !! key); split; congruence. }
  rewrite Habs.
  split.
  - intros [H|H]; [by left|right].
    destruct (d !! "Attributes") as [[| | | |a]|] eqn:Ha;
      try (by apply elem_of_nil in H).
    + unfold absent in H. destruct (a !! "NodeCount") eqn:Hn;
        [by apply elem_of_nil in H|].
      apply list_elem_of_singleton in H as ->. right. eauto.
    + apply list_elem_of_singleton in H as ->. by left.
  - intros [H|[[-> H]|[-> (a & Ha & Hn)]]]; [by left| |].
    + right. rewrite H. by apply list_elem_of_singleton.
    + right. rewrite Ha. unfold absent. rewrite Hn.
      by apply list_elem_of_singleton.
Qed.

Lemma attributes_is_mapping_insert (d a : gmap string value) :
  attributes_is_mapping (<["Attributes" := VDict a]> d).
Proof.
  intros v Hv. rewrite lookup_insert_eq in Hv. injection Hv as <-. eauto.
Qed.

Lemma from_dict_missing_key_witness :
  (∃ key,
     key ∈ missing_keys (<["Attributes" := VDict ∅]> sample_record_dict) ∧
     ComputeUsageRecord.from_dict
       (VDict (<["Attributes" := VDict ∅]> sample_record_dict))
     = Raise (KeyError key)) ∧
  (∃ r, ComputeUsageRecord.from_dict (VDict minimal_record_dict) = Ok r).
Proof.
  split.
  - apply (proj1 (from_dict_missing_key
                    (<["Attributes" := VDict ∅]> sample_record_dict)
                    (attributes_is_mapping_insert _ _))).
    vm_compute. discriminate.
  - apply (proj2 (from_dict_missing_key minimal_record_dict
                    (attributes_is_mapping_insert _ _))).
    reflexivity.
Defined.

(** ** The store only grows *)

Section Store.
Import UsageMessage.
Implicit Types (σ : heap) (l self : loc) (o : object).

Lemma alloc_fresh o σ :
  ∃ l, alloc o σ = (Ok l, <[l := o]> σ) ∧ σ !! l = None.
Proof.
  exists (fresh (dom σ)). split; [reflexivity|].
  apply not_elem_of_dom, is_fresh.
Qed.

Lemma alloc_extends o σ : σ ⊆ (alloc o σ).2.
Proof.
  destruct (alloc_fresh o σ) as (l & -> & Hl). simpl.
  by apply insert_subseteq.
Qed.

Lemma get_usage_type_heap self σ : (get_usage_type self σ).2 = σ.
Proof.
  unfold get_usage_type.
  destruct (σ !! self) as [[|[[?|] ?]]|]; reflexivity.
Qed.

Lemma get_records_heap self σ : (get_records self σ).2 = σ.
Proof.
  unfold get_records.
  destruct (σ !! self) as [[|[? [?|]]]|]; reflexivity.
Qed.

Lemma list_items_heap l σ : (list_items l σ).2 = σ.
Proof.
  unfold list_items. destruct (σ !! l) as [[|]|]; reflexivity.
Qed.

Lemma init_extends ut l σ : σ ⊆ (__init__ ut l σ).2.
Proof.
  unfold __init__. destruct ut; try reflexivity.
  case_bool_decide; [apply alloc_extends|reflexivity].
Qed.

Lemma chunk_at_extends self chunk_size i σ :
  σ ⊆ (chunk_at self chunk_size i σ).2.
Proof.
  unfold chunk_at, mbind, M_bind.
  pose proof (get_records_heap self σ) as H1.
  destruct (get_records self σ) as [[l|e] σ1]; simpl in H1; subst σ1;
    [|reflexivity].
  pose proof (list_items_heap l σ) as H2.
  destruct (list_items l σ) as [[items|e] σ2]; simpl in H2; subst σ2;
    [|reflexivity].
  pose proof (alloc_extends (ListObj (slice items i (i + chunk_size))) σ)
    as H3.
  destruct (alloc _ σ) as [[r|e] σ3]; simpl in H3; [|exact H3].
  pose proof (get_usage_type_heap self σ3) as H4.
  destruct (get_usage_type self σ3) as [[ut|e] σ4]; simpl in H4; subst σ4;
    [|exact H3].
  etrans; [exact H3|apply init_extends].
Qed.

Lemma chunk_loop_extends self chunk_size indices σ :
  σ ⊆ (chunk_loop self chunk_size indices σ).2.
Proof.
  revert σ. induction indices as [|i rest IH]; intros σ; simpl;
    [reflexivity|].
  pose proof (chunk_at_extends self chunk_size i σ) as H1.
  destruct (chunk_at self chunk_size i σ) as [[m|e] σ1]; simpl in H1;
    [|exact H1].
  specialize (IH σ1).
  destruct (chunk_loop self chunk_size rest σ1) as [[ms e] σ2].
  simpl in *. by etrans.
Qed.

(** Iterating [_chunked] to the end leaves every object of the store as
    it was; the only change is the objects it adds. *)
Lemma chunked_extends self chunk_size σ :
  σ ⊆ (_chunked self chunk_size σ).2.
Proof.
  unfold _chunked, mbind, M_bind.
  pose proof (get_records_heap self σ) as H1.
  destruct (get_records self σ) as [[l|e] σ1]; simpl in H1; subst σ1;
    [|reflexivity].
  pose proof (list_items_heap l σ) as H2.
  destruct (list_items l σ) as [[items|e] σ2]; simpl in H2; subst σ2;
    [|reflexivity].
  destruct (chunk_size =? 0); [reflexivity|].
  apply chunk_loop_extends.
Qed.

End Store.

(** ** Normalising the usage type *)

Lemma lower_swapcase_char (c : ascii) :
  lower_char (swapcase_char c) = lower_char c.
Proof. destruct c as [[] [] [] [] [] [] [] []]; reflexivity. Qed.

Lemma case_permutation_lower (s t : string) :
  case_permutation s t = true → lower s = lower t.
Proof.
  revert t. induction s as [|a s IH]; intros [|b t]; simpl; try done.
  intros [Hc Hr]%andb_prop. f_equal; [|by apply IH].
  apply orb_prop in Hc as [Hc|Hc]; apply Ascii.eqb_eq in Hc; subst;
    [reflexivity|apply lower_swapcase_char].
Qed.

Lemma capitalize_lower_canonical (s canonical : string) :
  canonical ∈ UsageMessage.valid_usage_types →
  case_permutation s canonical = true →
  capitalize (lower s) = canonical.
Proof.
  intros Hv Hp. rewrite (case_permutation_lower _ _ Hp).
  unfold UsageMessage.valid_usage_types in Hv.
  repeat (apply elem_of_cons in Hv as [->|Hv]; [reflexivity|]).
  by apply elem_of_nil in Hv.
Qed.

(** ** Claims about [UsageMessage] *)

(** C7.  The constructor raises [UsageMessageException], the module's
    exception for an invalid usage type, exactly when the normalised usage
    type is not in the closed set; otherwise it returns a new instance. *)
Theorem init_checks_usage_type (s : string) (records : loc) (σ : heap) :
  let ut := capitalize (lower s) in
  (ut ∉ UsageMessage.valid_usage_types →
   UsageMessage.__init__ (VStr s) records σ
   = (Raise (UsageMessageException ("Invalid usage type " +:+ ut)), σ)) ∧
  (ut ∈ UsageMessage.valid_usage_types →
   ∃ self,
     UsageMessage.__init__ (VStr s) records σ
     = (Ok self, <[self := new_instance records]> σ) ∧
     σ !! self = None).
Proof.
  simpl. unfold UsageMessage.__init__. split; intros Hut.
  - rewrite bool_decide_eq_false_2 by done. reflexivity.
  - rewrite bool_decide_eq_true_2 by done. apply alloc_fresh.
Qed.

Lemma init_checks_usage_type_witness :
  UsageMessage.__init__ (VStr "Bogus") 1%positive sample_heap
  = (Raise (UsageMessageException "Invalid usage type Bogus"), sample_heap) ∧
  ∃ self,
    UsageMessage.__init__ (VStr "sTORAGE") 1%positive sample_heap
    = (Ok self, <[self := new_instance 1%positive]> sample_heap) ∧
    sample_heap !! self = None.
Proof.
  split.
  - apply (proj1 (init_checks_usage_type "Bogus" 1%positive sample_heap)).
    apply (bool_decide_unpack _). by vm_compute.
  - apply (proj2 (init_checks_usage_type "sTORAGE" 1%positive sample_heap)).
    apply (bool_decide_unpack _). by vm_compute.
Defined.

Example init_on_sample_heap :
  UsageMessage.__init__ (VStr "Compute") 1%positive sample_heap
  = (Ok 2%positive, sample_message_heap).
Proof. reflexivity. Qed.

(** A new instance has no [usage_type]: reading it raises. *)
Lemma get_usage_type_new_instance (self records : loc) (σ : heap) :
  σ !! self = Some (new_instance records) →
  UsageMessage.get_usage_type self σ
  = (Raise (AttributeError "usage_type"), σ).
Proof. intros H. unfold UsageMessage.get_usage_type. by rewrite H. Qed.

(** C5 (the code departs from it).  For a case permutation of one of the
    three usage types the constructor succeeds and the normalised string is
    the canonical one, but the new instance does not hold it: [as_dict] on
    the new message raises [AttributeError]. *)
Theorem init_then_as_dict_raises
    (s canonical : string) (records : loc) (σ : heap) :
  canonical ∈ UsageMessage.valid_usage_types →
  case_permutation s canonical = true →
  capitalize (lower s) = canonical ∧
  ∃ self σ',
    UsageMessage.__init__ (VStr s) records σ = (Ok self, σ') ∧
    σ' !! self = Some (new_instance records) ∧
    UsageMessage.as_dict self σ' = (Raise (AttributeError "usage_type"), σ').
Proof.
  intros Hv Hp.
  pose proof (capitalize_lower_canonical s canonical Hv Hp) as Hc.
  split; [exact Hc|].
  unfold UsageMessage.__init__. rewrite Hc.
  rewrite bool_decide_eq_true_2 by done.
  destruct (alloc_fresh (new_instance records) σ) as (self & Ha & _).
  exists self, (<[self := new_instance records]> σ).
  split; [exact Ha|].
  assert (Hl : <[self := new_instance records]> σ !! self
               = Some (new_instance records)) by apply lookup_insert_eq.
  split; [exact Hl|].
  unfold UsageMessage.as_dict, mbind, M_bind.
  by rewrite (get_usage_type_new_instance _ _ _ Hl).
Qed.

Lemma init_then_as_dict_raises_witness :
  capitalize (lower "cOMPUTE") = "Compute" ∧
  ∃ self σ',
    UsageMessage.__init__ (VStr "cOMPUTE") 1%positive sample_heap
    = (Ok self, σ') ∧
    σ' !! self = Some (new_instance 1%positive) ∧
    UsageMessage.as_dict self σ' = (Raise (AttributeError "usage_type"), σ').
Proof.
  apply (init_then_as_dict_raises "cOMPUTE" "Compute" 1%positive sample_heap).
  - apply (bool_decide_unpack _). by vm_compute.
  - reflexivity.
Defined.

(** [range] from 0 with a positive step over a non-empty extent starts
    with 0. *)
Lemma range_pos_head (n step : Z) :
  0 < n → 0 < step → ∃ rest, range 0 n step = 0 :: rest.
Proof.
  intros Hn Hs. unfold range, range_len.
  rewrite (proj2 (Z.ltb_lt 0 step)) by done.
  assert (1 <= (n - 0 + step - 1) / step).
  { apply Z.div_le_lower_bound; lia. }
  destruct (Z.to_nat (Z.max 0 ((n - 0 + step - 1) / step))) as [|k] eqn:Hk;
    [lia|].
  simpl. eauto.
Qed.

Lemma range_empty (step : Z) : 0 < step → range 0 0 step = [].
Proof.
  intros Hs. unfold range, range_len.
  rewrite (proj2 (Z.ltb_lt 0 step)) by done.
  replace ((0 - 0 + step - 1) / step) with 0; [reflexivity|].
  symmetry. apply Z.div_small. lia.
Qed.

(** C6 (the code departs from it).  On a message built by the constructor
    over a list object, with a positive chunk size: for an empty list the
    iteration ends at once with nothing yielded; for a non-empty one it
    yields nothing either, the first step raising [AttributeError] on
    [usage_type]. *)
Theorem chunked_of_new_message
    (s : string) (rl : loc) (items : list ComputeUsageRecord.t)
    (chunk_size : Z) (σ : heap) :
  σ !! rl = Some (ListObj items) →
  capitalize (lower s) ∈ UsageMessage.valid_usage_types →
  0 < chunk_size →
  ∃ self σ1,
    UsageMessage.__init__ (VStr s) rl σ = (Ok self, σ1) ∧
    match items with
    | [] => UsageMessage._chunked self chunk_size σ1 = (([], None), σ1)
    | _ :: _ =>
        ∃ σ2, UsageMessage._chunked self chunk_size σ1
              = (([], Some (AttributeError "usage_type")), σ2)
    end.
Proof.
  intros Hrl Hv Hc.
  unfold UsageMessage.__init__. rewrite bool_decide_eq_true_2 by done.
  destruct (alloc_fresh (new_instance rl) σ) as (self & Ha & Hfresh).
  exists self, (<[self := new_instance rl]> σ). split; [exact Ha|].
  set (σ1 := <[self := new_instance rl]> σ).
  assert (Hself : σ1 !! self = Some (new_instance rl))
    by apply lookup_insert_eq.
  assert (Hne : self ≠ rl) by (intros ->; congruence).
  assert (Hrl1 : σ1 !! rl = Some (ListObj items))
    by (unfold σ1; by rewrite lookup_insert_ne).
  assert (Hz : (chunk_size =? 0) = false) by (apply Z.eqb_neq; lia).
  unfold UsageMessage._chunked, mbind, M_bind, UsageMessage.get_records,
    UsageMessage.list_items.
  rewrite Hself. simpl. rewrite Hrl1, Hz.
  destruct items as [|r items].
  - simpl. by rewrite range_empty.
  - destruct (range_pos_head (Z.of_nat (length (r :: items))) chunk_size)
      as [rest ->]; [simpl; lia|done|].
    simpl. unfold UsageMessage.chunk_at, mbind, M_bind,
      UsageMessage.get_records, UsageMessage.list_items.
    rewrite Hself. simpl. rewrite Hrl1.
    set (l := fresh (dom σ1)).
    assert (Hl : σ1 !! l = None) by apply not_elem_of_dom, is_fresh.
    assert (Hne' : l ≠ self) by (intros E; rewrite E in Hl; congruence).
    rewrite (get_usage_type_new_instance self rl);
      [eauto|by rewrite lookup_insert_ne].
Qed.

Lemma chunked_of_new_message_witness :
  ∃ self σ1,
    UsageMessage.__init__ (VStr "Compute") 1%positive sample_heap
    = (Ok self, σ1) ∧
    ∃ σ2, UsageMessage._chunked self 2 σ1
          = (([], Some (AttributeError "usage_type")), σ2).
Proof.
  apply (chunked_of_new_message "Compute" 1%positive
           [sample_record; sample_record; sample_record] 2 sample_heap).
  - reflexivity.
  - apply (bool_decide_unpack _). by vm_compute.
  - lia.
Defined.

(** C4 (the code departs from it).  When [Records] is a non-empty list,
    [from_dict] raises [NameError]: the comprehension asks for the global
    [UsageRecord], and the module binds no such name. *)
Theorem from_dict_NameError
    (d : gmap string value) (ut entry : value) (rest : list value)
    (σ : heap) :
  d !! "UsageType" = Some ut →
  d !! "Records" = Some (VList (entry :: rest)) →
  UsageMessage.from_dict (VDict d) σ = (Raise (NameError "UsageRecord"), σ).
Proof.
  intros Hut Hrecs.
  unfold UsageMessage.from_dict, mbind, M_bind, lift, getitem.
  rewrite Hut. simpl. rewrite Hrecs. reflexivity.
Qed.

Lemma from_dict_NameError_witness :
  UsageMessage.from_dict (VDict sample_message_dict) ∅
  = (Raise (NameError "UsageRecord"), ∅).
Proof.
  apply (from_dict_NameError sample_message_dict (VStr "Compute")
           (VDict sample_record_dict) []); reflexivity.
Defined.

(** With no entry in [Records] the name is never looked up, and a valid
    usage type gives a message over a new, empty list. *)
Lemma from_dict_no_records (d : gmap string value) (s : string) (σ : heap) :
  d !! "UsageType" = Some (VStr s) →
  d !! "Records" = Some (VList []) →
  capitalize (lower s) ∈ UsageMessage.valid_usage_types →
  ∃ self l σ',
    UsageMessage.from_dict (VDict d) σ = (Ok self, σ') ∧
    σ' !! self = Some (new_instance l) ∧
    σ' !! l = Some (ListObj []).
Proof.
  intros Hut Hrecs Hv.
  unfold UsageMessage.from_dict, mbind, M_bind, lift, getitem.
  rewrite Hut. simpl. rewrite Hrecs. simpl.
  unfold UsageMessage.__init__. rewrite bool_decide_eq_true_2 by done.
  unfold alloc.
  set (l := fresh (dom σ)).
  set (σ1 := <[l := ListObj []]> σ).
  set (self := fresh (dom σ1)).
  assert (Hs : σ1 !! self = None) by apply not_elem_of_dom, is_fresh.
  exists self, l, (<[self := new_instance l]> σ1).
  split; [reflexivity|]. split; [apply lookup_insert_eq|].
  rewrite lookup_insert_ne; [apply lookup_insert_eq|].
  intros E. unfold σ1 in Hs. rewrite <- E in Hs.
  by rewrite lookup_insert_eq in Hs.
Qed.

(** C9.  Iterating [_chunked] to the end leaves the source message as it
    was: the instance still has the same attributes, and the list object
    its [records] refers to still has the same items in the same order. *)
Theorem chunked_preserves_source
    (self rl : loc) (i : instance) (items : list ComputeUsageRecord.t)
    (chunk_size : Z) (σ : heap) :
  σ !! self = Some (Instance i) →
  records i = Some rl →
  σ !! rl = Some (ListObj items) →
  let σ' := (UsageMessage._chunked self chunk_size σ).2 in
  σ' !! self = Some (Instance i) ∧ σ' !! rl = Some (ListObj items).
Proof.
  intros Hself _ Hrl. simpl.
  pose proof (chunked_extends self chunk_size σ) as Hsub.
  split; eapply lookup_weaken; eauto.
Qed.

Lemma chunked_preserves_source_witness :
  let σ' := (UsageMessage._chunked 2%positive 2 sample_message_heap).2 in
  σ' !! 2%positive = Some (new_instance 1%positive) ∧
  σ' !! 1%positive
  = Some (ListObj [sample_record; sample_record; sample_record]).
Proof.
  apply (chunked_preserves_source 2%positive 1%positive
           {| usage_type := None; records := Some 1%positive |}
           [sample_record; sample_record; sample_record] 2
           sample_message_heap); reflexivity.
Defined.

(** ** The slices that [_chunked] takes *)

Section Slices.
Context {A : Type}.
Implicit Types (l : list A) (k n : nat).

(** The slice taken at index [k * n] with chunk size [n]. *)
Lemma slice_chunk l k n :
  slice l (Z.of_nat (k * n)) (Z.of_nat (k * n) + Z.of_nat n)
  = take n (drop (k * n) l).
Proof.
  unfold slice, clamp.
  rewrite (proj2 (Z.ltb_ge _ 0)) by lia.
  rewrite (proj2 (Z.ltb_ge _ 0)) by lia.
  destruct (decide (k * n ≤ length l)%nat) as [Hle|Hgt].
  - replace (Z.to_nat (Z.min (Z.of_nat (k * n)) (Z.of_nat (length l))))
      with (k * n)%nat by lia.
    destruct (decide (k * n + n ≤ length l)%nat) as [Hin|Hout].
    + f_equal. lia.
    + rewrite !take_ge; [done| |]; rewrite length_drop; lia.
  - rewrite (drop_ge l (k * n)) by lia.
    rewrite drop_ge by lia. by rewrite !take_nil.
Qed.

(** Consecutive chunks of size [n] put end to end give the list back,
    provided there are enough of them. *)
Lemma chunks_concat n count l :
  (length l ≤ count * n)%nat →
  concat (map (λ k, take n (drop (k * n) l)) (seq 0 count)) = l.
Proof.
  revert l. induction count as [|count IH]; intros l Hlen.
  - simpl in *. destruct l; [done|simpl in Hlen; lia].
  - rewrite <- cons_seq, <- fmap_S_seq. simpl.
    rewrite drop_0.
    transitivity (take n l ++ drop n l); [|apply take_drop].
    f_equal.
    etrans; [|apply (IH (drop n l)); rewrite length_drop; lia].
    f_equal. rewrite <- list_fmap_compose.
    apply list_fmap_ext. intros _ k _. simpl.
    by rewrite drop_drop.
Qed.

(** The indices that [_chunked] visits cover the list: the slices taken
    there, in order, concatenate to the list. *)
Lemma slices_concat l (chunk_size : Z) :
  0 < chunk_size →
  concat (map (λ i, slice l i (i + chunk_size))
              (range 0 (Z.of_nat (length l)) chunk_size)) = l.
Proof.
  intros Hc. unfold range, range_len.
  rewrite (proj2 (Z.ltb_lt 0 chunk_size)) by done.
  set (n := Z.to_nat chunk_size).
  set (count := Z.to_nat (Z.max 0
                  ((Z.of_nat (length l) - 0 + chunk_size - 1) / chunk_size))).
  rewrite <- list_fmap_compose.
  etrans; [|apply (chunks_concat n count l)].
  - f_equal. apply list_fmap_ext. intros _ k _. simpl.
    replace (0 + Z.of_nat k * chunk_size) with (Z.of_nat (k * n)) by lia.
    replace chunk_size with (Z.of_nat n) at 1 by lia.
    apply slice_chunk.
  - pose proof (Z.mul_succ_div_gt
                  (Z.of_nat (length l) - 0 + chunk_size - 1) chunk_size Hc).
    assert (0 <= (Z.of_nat (length l) - 0 + chunk_size - 1) / chunk_size)
      by (apply Z.div_pos; lia).
    unfold count, n. nia.
Qed.

Lemma range_length (n chunk_size : Z) :
  0 <= n → 0 < chunk_size →
  length (range 0 n chunk_size)
  = Z.to_nat ((n + chunk_size - 1) / chunk_size).
Proof.
  intros Hn Hc. unfold range, range_len.
  rewrite (proj2 (Z.ltb_lt 0 chunk_size)) by done.
  rewrite length_map, length_seq.
  assert (0 <= (n + chunk_size - 1) / chunk_size)
    by (apply Z.div_pos; lia).
  replace (n - 0 + chunk_size - 1) with (n + chunk_size - 1) by lia.
  lia.
Qed.

End Slices.

Example range_2500_1000 : range 0 2500 1000 = [0; 1000; 2000].
Proof. reflexivity. Qed.

Example slice_last_chunk :
  slice [1; 2; 3; 4; 5] 4 (4 + 2) = [5].
Proof. reflexivity. Qed.

(** ** [_chunked] on a message whose [usage_type] has been bound *)

Section Bound.
Import UsageMessage.
Variables (self rl : loc) (s : string) (items : list ComputeUsageRecord.t).
Variable chunk_size : Z.
Hypothesis Hvalid : capitalize (lower s) ∈ valid_usage_types.

Local Abbreviation source_in := (source_in self rl s items).
Local Abbreviation chunk_in := (chunk_in items chunk_size).

Lemma chunk_at_bound i σ :
  source_in σ →
  ∃ m σ', chunk_at self chunk_size i σ = (Ok m, σ') ∧
          σ ⊆ σ' ∧ chunk_in σ' m i.
Proof.
  intros [Hself Hrl].
  unfold chunk_at, mbind, M_bind, get_records, list_items, get_usage_type.
  rewrite Hself. simpl. rewrite Hrl. unfold alloc.
  set (r := fresh (dom σ)).
  assert (Hr : σ !! r = None) by apply not_elem_of_dom, is_fresh.
  set (σ1 := <[r := ListObj (slice items i (i + chunk_size))]> σ).
  assert (Hself1 : σ1 !! self
                   = Some (Instance {| usage_type := Some (VStr s);
                                       records := Some rl |})).
  { unfold σ1. rewrite lookup_insert_ne; [done|]. intros E.
    rewrite E in Hr. congruence. }
  rewrite Hself1. simpl.
  unfold __init__. rewrite bool_decide_eq_true_2 by done. unfold alloc.
  set (m := fresh (dom σ1)).
  assert (Hm : σ1 !! m = None) by apply not_elem_of_dom, is_fresh.
  exists m, (<[m := new_instance r]> σ1).
  split; [reflexivity|]. split.
  - etrans; [|by apply insert_subseteq]. by apply insert_subseteq.
  - exists r. split; [apply lookup_insert_eq|].
    rewrite lookup_insert_ne; [apply lookup_insert_eq|].
    intros E. rewrite E in Hm. unfold σ1 in Hm.
    by rewrite lookup_insert_eq in Hm.
Qed.

Lemma chunk_in_weaken σ σ' m i : σ ⊆ σ' → chunk_in σ m i → chunk_in σ' m i.
Proof.
  intros Hsub (r & Hm & Hr). exists r.
  split; eapply lookup_weaken; eauto.
Qed.

Lemma source_in_weaken σ σ' : σ ⊆ σ' → source_in σ → source_in σ'.
Proof. intros Hsub [H1 H2]. split; eapply lookup_weaken; eauto. Qed.

Lemma chunk_loop_bound indices σ :
  source_in σ →
  ∃ ms σ', chunk_loop self chunk_size indices σ = ((ms, None), σ') ∧
           σ ⊆ σ' ∧ Forall2 (chunk_in σ') ms indices.
Proof.
  revert σ. induction indices as [|i rest IH]; intros σ Hsrc; simpl.
  - exists [], σ. repeat split; [done|constructor].
  - destruct (chunk_at_bound i σ Hsrc) as (m & σ1 & -> & Hsub1 & Hm).
    destruct (IH σ1 (source_in_weaken _ _ Hsub1 Hsrc))
      as (ms & σ2 & -> & Hsub2 & Hms).
    exists (m :: ms), σ2. repeat split.
    + by etrans.
    + constructor; [by eapply chunk_in_weaken|done].
Qed.

(** Were [usage_type] bound on the source, the iteration would end
    normally after one message per index of [range], each wrapping the
    slice at its index; there are [ceil(n / chunk_size)] of them and the
    slices concatenate to the source's items.  The yielded instances
    themselves are built by [__init__], so they have no [usage_type]. *)
Lemma chunked_bound σ :
  0 < chunk_size →
  source_in σ →
  let n := Z.of_nat (length items) in
  ∃ ms σ',
    _chunked self chunk_size σ = ((ms, None), σ') ∧
    Forall2 (chunk_in σ') ms (range 0 n chunk_size) ∧
    length ms = Z.to_nat ((n + chunk_size - 1) / chunk_size) ∧
    concat (map (λ i, slice items i (i + chunk_size))
                (range 0 n chunk_size)) = items.
Proof.
  intros Hc Hsrc n. pose proof Hsrc as [Hself Hrl].
  unfold _chunked, mbind, M_bind, get_records, list_items.
  rewrite Hself. simpl. rewrite Hrl.
  rewrite (proj2 (Z.eqb_neq chunk_size 0)) by lia.
  destruct (chunk_loop_bound (range 0 n chunk_size) σ Hsrc)
    as (ms & σ' & Hloop & _ & Hms).
  exists ms, σ'. split; [exact Hloop|]. split; [exact Hms|].
  split.
  - rewrite (Forall2_length _ _ _ Hms). apply range_length; lia.
  - by apply slices_concat.
Qed.

End Bound.

(** * Further properties *)

(** ** [ComputeUsageRecord.from_dict] *)

Lemma attributes_is_mapping_delete (d : gmap string value) (key : string) :
  key ≠ "Attributes" →
  attributes_is_mapping d → attributes_is_mapping (delete key d).
Proof.
  intros Hne Hd v Hv. rewrite lookup_delete_ne in Hv by done. by apply Hd.
Qed.

(** X1.  For an input mapping whose [Attributes], when present, is a
    mapping: when several required keys are absent, the [KeyError] that
    [from_dict] raises names the first of them in the order the keys are
    read. *)
Theorem from_dict_reports_first_missing
    (d : gmap string value) (key : string) (rest : list string) :
  attributes_is_mapping d →
  missing_keys d = key :: rest →
  ComputeUsageRecord.from_dict (VDict d) = Raise (KeyError key).
Proof.
  intros Hmap Hmiss. pose proof (from_dict_first_missing d Hmap) as H.
  by rewrite Hmiss in H.
Qed.

Lemma from_dict_reports_first_missing_witness :
  ComputeUsageRecord.from_dict (VDict incomplete_record_dict)
  = Raise (KeyError "Resource").
Proof.
  apply (from_dict_reports_first_missing incomplete_record_dict
           "Resource" ["Charge"]).
  - apply attributes_is_mapping_delete; [done|].
    apply attributes_is_mapping_delete; [done|].
    apply attributes_is_mapping_insert.
  - reflexivity.
Defined.

(** X2.  When the eight top-level required keys are present and
    [Attributes] is present but is not a mapping ([null], a string, a list),
    [from_dict] raises [TypeError], not [KeyError]. *)
Theorem from_dict_attributes_not_mapping (d : gmap string value) (v : value) :
  List.filter (absent d) required_keys = [] →
  d !! "Attributes" = Some v →
  (∀ a, v ≠ VDict a) →
  ∃ msg, ComputeUsageRecord.from_dict (VDict d) = Raise (TypeError msg).
Proof.
  intros Hreq Ha Hv. revert Hreq.
  unfold required_keys, absent, ComputeUsageRecord.from_dict, getitem.
  simpl.
  repeat match goal with
  | |- context [d !! ?k] =>
      lazymatch k with
      | "Attributes" => fail
      | "ParentRecordID" => fail
      | _ => destruct (d !! k) eqn:?; simpl; [|discriminate]
      end
  end.
  intros _. rewrite Ha. simpl.
  destruct v as [|s|vs|vs|a]; simpl; eauto.
  by destruct (Hv a).
Qed.

Lemma from_dict_attributes_not_mapping_witness :
  ∃ msg, ComputeUsageRecord.from_dict (VDict null_attributes_dict)
         = Raise (TypeError msg).
Proof.
  apply (from_dict_attributes_not_mapping null_attributes_dict VNone).
  - reflexivity.
  - reflexivity.
  - discriminate.
Defined.

(** X3.  When [from_dict] returns a record, the dictionary of that record
    has, under each of the eight top-level required keys, the value the
    input had there. *)
Theorem from_dict_as_dict_required_values
    (d : gmap string value) (r : ComputeUsageRecord.t) (key : string) :
  ComputeUsageRecord.from_dict (VDict d) = Ok r →
  key ∈ required_keys →
  ComputeUsageRecord.as_dict r !! key = d !! key.
Proof.
  unfold ComputeUsageRecord.from_dict, getitem, get. simpl.
  repeat match goal with
  | |- context [d !! ?k] =>
      lazymatch k with
      | "ParentRecordID" => fail
      | _ => destruct (d !! k) eqn:?; simpl; [|discriminate]
      end
  end.
  match goal with
  | |- context [match ?v with VDict _ => _ | _ => _ end] =>
      destruct v as [| | | |a]; simpl; try discriminate
  end.
  destruct (a !! "NodeCount"); simpl; [|discriminate].
  destruct (a !! "CpuCoreCount"), (a !! "JobName"), (a !! "Memory"),
    (a !! "Queue"), (d !! "ParentRecordID"); simpl;
    intros Hr Hkey; injection Hr as <-;
    unfold required_keys in Hkey;
    repeat (apply elem_of_cons in Hkey as [->|Hkey];
            [etrans; [|symmetry; eassumption]; reflexivity|]);
    by apply elem_of_nil in Hkey.
Qed.

Lemma from_dict_as_dict_required_values_witness :
  ComputeUsageRecord.as_dict sample_record !! "Charge"
  = sample_record_dict !! "Charge".
Proof.
  apply (from_dict_as_dict_required_values sample_record_dict sample_record
           "Charge").
  - reflexivity.
  - apply (bool_decide_unpack _). by vm_compute.
Defined.

Lemma from_dict_as_dict_attributes_witness :
  ∃ attrs,
    ComputeUsageRecord.as_dict sample_record !! "Attributes"
    = Some (VDict attrs) ∧
    (∀ key, key ∈ wire_attribute_keys → attrs !! key = None) ∧
    attrs !! "node_count" = Some (VStr "1") ∧
    attrs !! "cpu_core_count" = None ∧
    attrs !! "job_name" = None ∧
    attrs !! "memory" = None ∧
    attrs !! "queue" = Some (VStr "batch").
Proof.
  exact (from_dict_as_dict_attributes sample_record_dict
           (list_to_map [("NodeCount", VStr "1"); ("Queue", VStr "batch")])
           sample_record eq_refl eq_refl).
Defined.

(** X16.  [from_dict] ignores a top-level key it does not read: adding
    one to the input, with any value, changes neither the record it returns
    nor the exception it raises. *)
Theorem from_dict_ignores_unknown_key
    (d : gmap string value) (key : string) (v : value) :
  key ∉ known_keys →
  ComputeUsageRecord.from_dict (VDict (<[key := v]> d))
  = ComputeUsageRecord.from_dict (VDict d).
Proof.
  intros Hk. unfold ComputeUsageRecord.from_dict, getitem, get.
  assert (Hne : ∀ k, k ∈ known_keys → <[key := v]> d !! k = d !! k).
  { intros k Hin. apply lookup_insert_ne. by intros ->. }
  rewrite !Hne by (apply (bool_decide_unpack _); by vm_compute).
  reflexivity.
Qed.

Lemma from_dict_ignores_unknown_key_witness :
  ComputeUsageRecord.from_dict
    (VDict (<["Comment" := VStr "n/a"]> sample_record_dict))
  = ComputeUsageRecord.from_dict (VDict sample_record_dict).
Proof.
  apply (from_dict_ignores_unknown_key sample_record_dict "Comment"
           (VStr "n/a")).
  apply (bool_decide_unpack _). by vm_compute.
Defined.

(** X17.  [from_dict] ignores an entry of [Attributes] that is not one of
    the five wire-format attributes: adding one, with any value, changes
    neither the record it returns nor the exception it raises. *)
Theorem from_dict_ignores_unknown_attribute
    (d a : gmap string value) (key : string) (v : value) :
  key ∉ wire_attribute_keys →
  ComputeUsageRecord.from_dict
    (VDict (<["Attributes" := VDict (<[key := v]> a)]> d))
  = ComputeUsageRecord.from_dict (VDict (<["Attributes" := VDict a]> d)).
Proof.
  intros Hk. unfold ComputeUsageRecord.from_dict, getitem, get.
  assert (Hne : ∀ k, k ∈ wire_attribute_keys → <[key := v]> a !! k = a !! k).
  { intros k Hin. apply lookup_insert_ne. by intros ->. }
  rewrite !lookup_insert_eq.
  rewrite !(lookup_insert_ne _ "Attributes") by done.
  simpl.
  rewrite !Hne by (apply (bool_decide_unpack _); by vm_compute).
  reflexivity.
Qed.

Lemma from_dict_ignores_unknown_attribute_witness :
  ComputeUsageRecord.from_dict
    (VDict (<["Attributes" :=
               VDict (<["Partition" := VStr "gpu"]>
                        {["NodeCount" := VStr "1"]})]> sample_record_dict))
  = ComputeUsageRecord.from_dict
      (VDict (<["Attributes" := VDict {["NodeCount" := VStr "1"]}]>
                sample_record_dict)).
Proof.
  apply (from_dict_ignores_unknown_attribute sample_record_dict
           {["NodeCount" := VStr "1"]} "Partition" (VStr "gpu")).
  apply (bool_decide_unpack _). by vm_compute.
Defined.

(** ** [ComputeUsageRecord.as_dict] *)

(** What the attribute loop stores was an item, and was not [None]. *)
Lemma collect_attributes_lookup
    (items : list (string * value)) (key : string) (v : value) :
  ComputeUsageRecord.collect_attributes items !! key = Some v →
  is_None v = false ∧ (key, v) ∈ items.
Proof.
  unfold ComputeUsageRecord.collect_attributes.
  assert (G : ∀ acc : gmap string value,
             foldl (λ attributes kv,
                      if is_None kv.2 then attributes
                      else <[kv.1 := kv.2]> attributes) acc items !! key
             = Some v →
             (is_None v = false ∧ (key, v) ∈ items) ∨ acc !! key = Some v).
  { induction items as [|[k x] items IH]; intros acc H; simpl in *;
      [by right|].
    destruct (IH _ H) as [[Hv Hin]|Hacc].
    - left. split; [done|by right].
    - destruct (is_None x) eqn:Hx; [by right|].
      destruct (decide (k = key)) as [->|Hne].
      + rewrite lookup_insert_eq in Hacc. injection Hacc as ->.
        left. split; [done|left].
      + rewrite lookup_insert_ne in Hacc by done. by right. }
  intros H. destruct (G ∅ H) as [?|Hempty]; [done|].
  by rewrite lookup_empty in Hempty.
Qed.

(** X5.  The [Attributes] sub-mapping that [as_dict] builds never holds
    [None], and its keys are field names of [UsageAttributes]. *)
Theorem as_dict_attributes_never_None
    (r : ComputeUsageRecord.t) (attrs : gmap string value)
    (key : string) (v : value) :
  ComputeUsageRecord.as_dict r !! "Attributes" = Some (VDict attrs) →
  attrs !! key = Some v →
  is_None v = false ∧ key ∈ attribute_fields.
Proof.
  rewrite as_dict_Attributes. intros Ha Hk. injection Ha as <-.
  apply collect_attributes_lookup in Hk as [Hv Hin].
  split; [done|].
  unfold _asdict in Hin. unfold attribute_fields.
  repeat (apply elem_of_cons in Hin as [Hin|Hin];
          [injection Hin as -> _; apply (bool_decide_unpack _); by vm_compute|]).
  by apply elem_of_nil in Hin.
Qed.

Lemma as_dict_attributes_never_None_witness :
  is_None (VStr "batch") = false ∧ "queue" ∈ attribute_fields.
Proof.
  apply (as_dict_attributes_never_None sample_record
           (list_to_map [("node_count", VStr "1"); ("queue", VStr "batch")])
           "queue" (VStr "batch")); reflexivity.
Defined.

(** X6.  The top-level keys of the dictionary of a record are the eight
    required keys and [Attributes], and [ParentRecordID] as well unless the
    stored [parent_record_id] is [None]. *)
Theorem as_dict_dom (r : ComputeUsageRecord.t) :
  dom (ComputeUsageRecord.as_dict r)
  = as_dict_keys ∪
    (if is_None (ComputeUsageRecord.parent_record_id r) then ∅
     else {["ParentRecordID"]}).
Proof.
  unfold ComputeUsageRecord.as_dict, as_dict_keys, required_keys.
  destruct (is_None (ComputeUsageRecord.parent_record_id r));
    reflexivity.
Qed.

(** ** The usage types that [UsageMessage.__init__] accepts *)

Lemma lower_lower_char (a : ascii) : lower_char (lower_char a) = lower_char a.
Proof. destruct a as [[] [] [] [] [] [] [] []]; reflexivity. Qed.

Lemma lower_upper_lower_char (a : ascii) :
  lower_char (upper_char (lower_char a)) = lower_char a.
Proof. destruct a as [[] [] [] [] [] [] [] []]; reflexivity. Qed.

Lemma lower_lower (s : string) : lower (lower s) = lower s.
Proof.
  induction s as [|a s IH]; simpl; [done|].
  by rewrite lower_lower_char, IH.
Qed.

Lemma case_permutation_lower_char (a : ascii) :
  (Ascii.eqb a (lower_char a)
   || Ascii.eqb a (swapcase_char (lower_char a))) = true.
Proof. destruct a as [[] [] [] [] [] [] [] []]; reflexivity. Qed.

Lemma case_permutation_capital_char (a : ascii) :
  (Ascii.eqb a (upper_char (lower_char a))
   || Ascii.eqb a (swapcase_char (upper_char (lower_char a)))) = true.
Proof. destruct a as [[] [] [] [] [] [] [] []]; reflexivity. Qed.

Lemma case_permutation_of_lower (s : string) :
  case_permutation s (lower s) = true.
Proof.
  induction s as [|a s IH]; simpl; [done|].
  by rewrite case_permutation_lower_char, IH.
Qed.

(** A string is a case permutation of its own normal form. *)
Lemma case_permutation_normalised (s : string) :
  case_permutation s (capitalize (lower s)) = true.
Proof.
  destruct s as [|a s]; simpl; [done|].
  rewrite case_permutation_capital_char, lower_lower.
  apply case_permutation_of_lower.
Qed.



(** ** [UsageMessage._chunked]: the chunk size *)

(** X9.  On a message over a list object, a chunk size of 0 makes the
    iteration raise [ValueError] before anything is yielded, whatever the
    list holds, and the store is left as it was. *)
Theorem chunked_zero_chunk_size
    (self rl : loc) (i : instance) (items : list ComputeUsageRecord.t)
    (σ : heap) :
  σ !! self = Some (Instance i) →
  records i = Some rl →
  σ !! rl = Some (ListObj items) →
  UsageMessage._chunked self 0 σ
  = (([], Some (ValueError "range() arg 3 must not be zero")), σ).
Proof.
  intros Hself Hrec Hrl.
  unfold UsageMessage._chunked, mbind, M_bind, UsageMessage.get_records,
    UsageMessage.list_items.
  rewrite Hself, Hrec. simpl. by rewrite Hrl.
Qed.

Lemma chunked_zero_chunk_size_witness :
  UsageMessage._chunked 2%positive 0 sample_message_heap
  = (([], Some (ValueError "range() arg 3 must not be zero")),
     sample_message_heap).
Proof.
  apply (chunked_zero_chunk_size 2%positive 1%positive
           {| usage_type := None; records := Some 1%positive |}
           [sample_record; sample_record; sample_record]); reflexivity.
Defined.

Lemma range_negative_step (n step : Z) :
  0 <= n → step < 0 → range 0 n step = [].
Proof.
  intros Hn Hs. unfold range, range_len.
  rewrite (proj2 (Z.ltb_ge 0 step)) by lia.
  assert ((0 - n - step - 1) / - step <= 0).
  { apply Z.lt_succ_r. apply Z.div_lt_upper_bound; lia. }
  replace (Z.to_nat (Z.max 0 ((0 - n - step - 1) / - step))) with 0%nat
    by lia.
  reflexivity.
Qed.

(** X10.  On a message over a list object, a negative chunk size makes the
    iteration end at once with nothing yielded and no exception, however
    many records the list holds; the store is left as it was. *)
Theorem chunked_negative_chunk_size
    (self rl : loc) (i : instance) (items : list ComputeUsageRecord.t)
    (chunk_size : Z) (σ : heap) :
  σ !! self = Some (Instance i) →
  records i = Some rl →
  σ !! rl = Some (ListObj items) →
  chunk_size < 0 →
  UsageMessage._chunked self chunk_size σ = (([], None), σ).
Proof.
  intros Hself Hrec Hrl Hc.
  unfold UsageMessage._chunked, mbind, M_bind, UsageMessage.get_records,
    UsageMessage.list_items.
  rewrite Hself, Hrec. simpl. rewrite Hrl.
  rewrite (proj2 (Z.eqb_neq chunk_size 0)) by lia.
  rewrite range_negative_step by lia. reflexivity.
Qed.

Lemma chunked_negative_chunk_size_witness :
  UsageMessage._chunked 2%positive (-1) sample_message_heap
  = (([], None), sample_message_heap).
Proof.
  apply (chunked_negative_chunk_size 2%positive 1%positive
           {| usage_type := None; records := Some 1%positive |}
           [sample_record; sample_record; sample_record] (-1));
    [reflexivity|reflexivity|reflexivity|lia].
Defined.

(** ** [UsageMessage._chunked] when [usage_type] has been bound *)

Lemma subseteq_lookup_None (σ σ' : heap) (l : loc) :
  σ ⊆ σ' → σ' !! l = None → σ !! l = None.
Proof.
  intros Hsub Hl. destruct (σ !! l) as [o|] eqn:Ho; [|done].
  by rewrite (lookup_weaken _ _ _ _ Ho Hsub) in Hl.
Qed.

(** The message that one pass of the loop yields is a new object. *)
Lemma chunk_at_fresh (self : loc) (chunk_size i : Z) (σ σ' : heap) (m : loc) :
  UsageMessage.chunk_at self chunk_size i σ = (Ok m, σ') → σ !! m = None.
Proof.
  unfold UsageMessage.chunk_at, mbind, M_bind.
  pose proof (get_records_heap self σ) as H1.
  destruct (UsageMessage.get_records self σ) as [[l|e] σ1]; simpl in H1;
    subst σ1; [|discriminate].
  pose proof (list_items_heap l σ) as H2.
  destruct (UsageMessage.list_items l σ) as [[items|e] σ2]; simpl in H2;
    subst σ2; [|discriminate].
  pose proof (alloc_extends (ListObj (slice items i (i + chunk_size))) σ)
    as H3.
  destruct (alloc _ σ) as [[r|e] σ3]; simpl in H3; [|discriminate].
  pose proof (get_usage_type_heap self σ3) as H4.
  destruct (UsageMessage.get_usage_type self σ3) as [[ut|e] σ4];
    simpl in H4; subst σ4; [|discriminate].
  unfold UsageMessage.__init__. destruct ut; try discriminate.
  case_bool_decide; [|discriminate].
  destruct (alloc_fresh
              (Instance {| usage_type := None; records := Some r |}) σ3)
    as (m' & -> & Hm').
  intros [= <- _]. by eapply subseteq_lookup_None.
Qed.

Lemma chunk_loop_fresh (self : loc) (chunk_size : Z) (indices : list Z) :
  ∀ (σ σ' : heap) (ms : list loc) (e : option exn),
    UsageMessage.chunk_loop self chunk_size indices σ = ((ms, e), σ') →
    Forall (λ m, σ !! m = None) ms.
Proof.
  induction indices as [|i rest IH]; intros σ σ' ms e; simpl.
  - intros [= <- _ _]. constructor.
  - pose proof (chunk_at_extends self chunk_size i σ) as Hsub.
    destruct (UsageMessage.chunk_at self chunk_size i σ) as [[m|e1] σ1]
      eqn:Hat; simpl in Hsub.
    + destruct (UsageMessage.chunk_loop self chunk_size rest σ1)
        as [[ms1 e2] σ2] eqn:Hloop.
      intros [= <- _ _]. constructor.
      * by eapply chunk_at_fresh.
      * eapply Forall_impl; [by eapply IH|].
        intros m' Hm'. by eapply subseteq_lookup_None.
    + intros [= <- _ _]. constructor.
Qed.

(** Every message that [_chunked] yields is an object that was not in the
    store before the iteration. *)
Lemma chunked_fresh (self : loc) (chunk_size : Z) (σ σ' : heap)
    (ms : list loc) (e : option exn) :
  UsageMessage._chunked self chunk_size σ = ((ms, e), σ') →
  Forall (λ m, σ !! m = None) ms.
Proof.
  unfold UsageMessage._chunked, mbind, M_bind.
  pose proof (get_records_heap self σ) as H1.
  destruct (UsageMessage.get_records self σ) as [[l|e1] σ1]; simpl in H1;
    subst σ1; [|intros [= <- _ _]; constructor].
  pose proof (list_items_heap l σ) as H2.
  destruct (UsageMessage.list_items l σ) as [[items|e1] σ2]; simpl in H2;
    subst σ2; [|intros [= <- _ _]; constructor].
  destruct (chunk_size =? 0); [intros [= <- _ _]; constructor|].
  apply chunk_loop_fresh.
Qed.

(** A slice never holds more items than the chunk size. *)
Lemma slice_length_le {A} (l : list A) (i chunk_size : Z) :
  0 <= chunk_size →
  Z.of_nat (length (slice l i (i + chunk_size))) <= chunk_size.
Proof.
  intros Hc. unfold slice, clamp. rewrite length_take.
  destruct (i <? 0) eqn:Hi, (i + chunk_size <? 0) eqn:Hj;
    rewrite ?Z.ltb_lt, ?Z.ltb_ge in Hi, Hj; lia.
Qed.



(** ** [UsageMessage.from_dict] *)

(** X12.  [from_dict] reads [UsageType] before [Records]: without
    [UsageType] it raises [KeyError] for it whatever [Records] holds, and
    with [UsageType] but without [Records] it raises [KeyError] for
    [Records], before the usage type is checked.  The store is left as it
    was. *)
Theorem message_from_dict_missing_key
    (d : gmap string value) (σ : heap) :
  (d !! "UsageType" = None →
   UsageMessage.from_dict (VDict d) σ = (Raise (KeyError "UsageType"), σ)) ∧
  (is_Some (d !! "UsageType") → d !! "Records" = None →
   UsageMessage.from_dict (VDict d) σ = (Raise (KeyError "Records"), σ)).
Proof.
  unfold UsageMessage.from_dict, mbind, M_bind, lift, getitem. split.
  - intros ->. reflexivity.
  - intros [ut ->] Hr. simpl. by rewrite Hr.
Qed.

Lemma message_from_dict_missing_key_witness :
  UsageMessage.from_dict (VDict (delete "UsageType" sample_message_dict)) ∅
  = (Raise (KeyError "UsageType"), ∅) ∧
  UsageMessage.from_dict (VDict (delete "Records" sample_message_dict)) ∅
  = (Raise (KeyError "Records"), ∅).
Proof.
  split.
  - apply (proj1 (message_from_dict_missing_key
                    (delete "UsageType" sample_message_dict) ∅)).
    reflexivity.
  - apply (proj2 (message_from_dict_missing_key
                    (delete "Records" sample_message_dict) ∅)).
    + by eexists.
    + reflexivity.
Defined.



(** A comprehension whose element expression raises on every item returns
    only for no item at all. *)
Lemma comprehension_raising {A B} (f : A → result B) (items : list A)
    (ys : list B) :
  (∀ x, ∃ e, f x = Raise e) →
  comprehension f items = Ok ys → items = [] ∧ ys = [].
Proof.
  intros Hf. destruct items as [|x rest]; simpl.
  - by intros [= <-].
  - destruct (Hf x) as [e ->]. discriminate.
Qed.

(** X14.  Whenever [from_dict] returns a message, that message is a new
    instance over a new, empty list: no input makes it return a message
    that holds a record.  The objects already in the store are left as they
    were. *)
Theorem message_from_dict_returns_empty
    (input_dict : value) (σ σ' : heap) (self : loc) :
  UsageMessage.from_dict input_dict σ = (Ok self, σ') →
  ∃ l, σ' !! self = Some (new_instance l) ∧
       σ' !! l = Some (ListObj []) ∧
       σ !! self = None ∧ σ !! l = None ∧ σ ⊆ σ'.
Proof.
  unfold UsageMessage.from_dict, mbind, M_bind, lift.
  destruct (getitem input_dict "UsageType") as [ut|e]; [|discriminate].
  destruct (getitem input_dict "Records") as [entries|e]; simpl;
    [|discriminate].
  destruct (iterate entries) as [ds|e]; simpl; [|discriminate].
  destruct (comprehension _ ds) as [rs|e] eqn:Hcomp; [|discriminate].
  apply comprehension_raising in Hcomp as [-> ->]; [|by eexists].
  unfold UsageMessage.__init__, alloc.
  set (l := fresh (dom σ)).
  assert (Hl : σ !! l = None) by apply not_elem_of_dom, is_fresh.
  set (σ1 := <[l := ListObj []]> σ).
  assert (Hsub1 : σ ⊆ σ1) by by apply insert_subseteq.
  destruct ut; try discriminate.
  case_bool_decide; [|discriminate].
  set (m := fresh (dom σ1)).
  assert (Hm : σ1 !! m = None) by apply not_elem_of_dom, is_fresh.
  intros [= <- <-]. exists l.
  split; [apply lookup_insert_eq|]. split.
  - rewrite lookup_insert_ne; [apply lookup_insert_eq|].
    intros E. unfold σ1 in Hm. rewrite <- E in Hm.
    by rewrite lookup_insert_eq in Hm.
  - split; [by eapply subseteq_lookup_None|]. split; [done|].
    etrans; [exact Hsub1|]. by apply insert_subseteq.
Qed.

Lemma message_from_dict_returns_empty_witness :
  ∃ l, empty_message_heap !! 2%positive = Some (new_instance l) ∧
       empty_message_heap !! l = Some (ListObj []) ∧
       (∅ : heap) !! 2%positive = None ∧ (∅ : heap) !! l = None ∧
       ∅ ⊆ empty_message_heap.
Proof.
  apply (message_from_dict_returns_empty
           (VDict (empty_message_dict "Compute")) ∅ empty_message_heap
           2%positive).
  reflexivity.
Defined.

(** ** [UsageMessage.as_json] *)

(** X15.  On a message that the constructor has just built, [as_json]
    raises [AttributeError] for [usage_type]: [as_dict] fails before
    [json.dumps] is called, so this holds whatever [json.dumps] does. *)
Theorem as_json_of_new_message
    (dumps : value → result string) (s : string) (records : loc)
    (σ : heap) :
  capitalize (lower s) ∈ UsageMessage.valid_usage_types →
  ∃ self σ',
    UsageMessage.__init__ (VStr s) records σ = (Ok self, σ') ∧
    UsageMessage.as_json dumps self σ'
    = (Raise (AttributeError "usage_type"), σ').
Proof.
  intros Hv. unfold UsageMessage.__init__.
  rewrite bool_decide_eq_true_2 by done.
  destruct (alloc_fresh (new_instance records) σ) as (self & Ha & _).
  exists self, (<[self := new_instance records]> σ).
  split; [exact Ha|].
  unfold UsageMessage.as_json, UsageMessage.as_dict, mbind, M_bind.
  rewrite (get_usage_type_new_instance self records); [done|].
  apply lookup_insert_eq.
Qed.

Lemma as_json_of_new_message_witness :
  ∃ self σ',
    UsageMessage.__init__ (VStr "Compute") 1%positive sample_heap
    = (Ok self, σ') ∧
    UsageMessage.as_json (λ _, Ok "{}") self σ'
    = (Raise (AttributeError "usage_type"), σ').
Proof.
  apply (as_json_of_new_message (λ _, Ok "{}") "Compute" 1%positive
           sample_heap).
  apply (bool_decide_unpack _). by vm_compute.
Defined.
